(** * scripts/extract-session-key.py: the browser probe, embedded and verified

    The script imports [browser_cookie3], walks the browsers chrome, firefox,
    edge, chromium in that order, scans the cookies of the domain
    [.claude.ai] in each store, and prints one JSON object.

    The embedding below follows the script statement by statement in a small
    monad that carries
    - the environment the script runs in (is [browser_cookie3] importable,
      and what does each browser's store do when it is opened and iterated),
    - the two local variables [session_key] and [org_id], which live in the
      frame of [extract_session_key] across loop iterations,
    - the trace of observable effects (stores opened, objects printed),
    and whose results distinguish normal completion, a raised exception,
    [return], [continue] and [sys.exit].

    Scope of the model: exceptions are the subclasses of [Exception] the
    script can meet ([ImportError], [PermissionError], any other); signals
    outside [Exception] (a keyboard interrupt) and a failing standard output
    are not modelled. [extract_session_key] covers the runs in which the
    import raises [ImportError] or nothing and the module has its four
    readers; [extract_session_key_host] adds the runs that die on another
    import error or on a missing reader. *)

From Stdlib Require Import List String Ascii NArith ZArith Bool Lia Permutation.
Import ListNotations.

Local Open Scope N_scope.

(** ** Python strings *)

(** A Python [str] is a sequence of Unicode code points. *)
Definition pystr := list N.

(** An ASCII literal of the source text. *)
Definition lit (s : string) : pystr := map N_of_ascii (list_ascii_of_string s).

Fixpoint pystr_eqb (a b : pystr) : bool :=
  match a, b with
  | [], [] => true
  | x :: a', y :: b' => (x =? y) && pystr_eqb a' b'
  | _, _ => false
  end.

(** A value held by a local variable of the script: [None] or a [str]. *)
Inductive pyval :=
| PyNone
| PyStr (s : pystr).

(** Python truth value: [None] and the empty string are false. *)
Definition truthy (v : pyval) : bool :=
  match v with
  | PyNone => false
  | PyStr [] => false
  | PyStr (_ :: _) => true
  end.

(** ** json.dumps on a dict with string keys (default arguments)

    With the default [ensure_ascii=True] every character outside the
    printable ASCII range, the double quote and the backslash are escaped;
    items are separated by a comma and a space, key and value by a colon and
    a space; a dict keeps insertion order. *)

Definition dict := list (pystr * pyval).

Definition dict_get (k : pystr) (d : dict) : option pyval :=
  option_map snd (find (fun kv => pystr_eqb (fst kv) k) d).

Definition dict_has (k : pystr) (d : dict) : bool :=
  match dict_get k d with Some _ => true | None => false end.

(** [d[k] = v]: replaces the value in place, or appends a new item. *)
Fixpoint dict_set (k : pystr) (v : pyval) (d : dict) : dict :=
  match d with
  | [] => [(k, v)]
  | (k', v') :: d' =>
      if pystr_eqb k' k then (k, v) :: d' else (k', v') :: dict_set k v d'
  end.

Definition quote_char : ascii := "034"%char.
Definition backslash_char : ascii := "092"%char.
Definition newline_char : ascii := "010"%char.

Definition str1 (c : ascii) : string := String c EmptyString.

Definition hex_digit (d : N) : ascii :=
  if d <? 10 then ascii_of_N (48 + d) else ascii_of_N (87 + d).

(** ['{0:04x}'.format(n)] for [n < 0x10000]. *)
Definition hex4 (n : N) : string :=
  String (hex_digit ((n / 4096) mod 16))
    (String (hex_digit ((n / 256) mod 16))
      (String (hex_digit ((n / 16) mod 16))
        (String (hex_digit (n mod 16)) EmptyString))).

Definition u_escape (n : N) : string :=
  String backslash_char (String "u"%char (hex4 n)).

(** The replacement [json.encoder] makes for one character. *)
Definition escape_char (n : N) : string :=
  if n =? 34 then String backslash_char (str1 quote_char)
  else if n =? 92 then String backslash_char (str1 backslash_char)
  else if (32 <=? n) && (n <=? 126) then str1 (ascii_of_N n)
  else if n =? 10 then String backslash_char "n"
  else if n =? 13 then String backslash_char "r"
  else if n =? 9 then String backslash_char "t"
  else if n =? 12 then String backslash_char "f"
  else if n =? 8 then String backslash_char "b"
  else if n <? 65536 then u_escape n
  else
    let m := n - 65536 in
    (u_escape (N.lor 55296 (N.land (N.shiftr m 10) 1023))
       ++ u_escape (N.lor 56320 (N.land m 1023)))%string.

Fixpoint escape_body (s : pystr) : string :=
  match s with
  | [] => EmptyString
  | n :: s' => (escape_char n ++ escape_body s')%string
  end.

Definition encode_basestring_ascii (s : pystr) : string :=
  String quote_char (escape_body s ++ str1 quote_char)%string.

Definition dumps_value (v : pyval) : string :=
  match v with
  | PyNone => "null"
  | PyStr s => encode_basestring_ascii s
  end.

Definition dumps_item (kv : pystr * pyval) : string :=
  (encode_basestring_ascii (fst kv) ++ ": " ++ dumps_value (snd kv))%string.

Fixpoint dumps_items (d : dict) : string :=
  match d with
  | [] => EmptyString
  | [kv] => dumps_item kv
  | kv :: d' => (dumps_item kv ++ ", " ++ dumps_items d')%string
  end.

Definition json_dumps (d : dict) : string :=
  ("{" ++ dumps_items d ++ "}")%string.

(** ** The world the script runs in *)

(** The four store readers of [browser_cookie3] the script uses. *)
Inductive Browser := Chrome | Firefox | Edge | Chromium.

(** Exceptions, all subclasses of [Exception]. *)
Inductive exn :=
| ImportError
| PermissionError
| OtherException.

(** [cookie.name], [cookie.value]. *)
Record Cookie := mkCookie { name : pystr; value : pystr }.

(** What iterating an opened store does: it hands out [jar_cookies] in this
    order and then either stops or raises [jar_fault]. *)
Record CookieJar := mkJar { jar_cookies : list Cookie; jar_fault : option exn }.

(** The environment: whether [import browser_cookie3] succeeds, and for each
    reader and domain either the exception it raises or the jar it returns. *)
Record Env := mkEnv {
  has_browser_cookie3 : bool;
  cookie_store : Browser -> pystr -> exn + CookieJar
}.

(** Observable effects, in the order they happen. *)
Inductive Event :=
| EvOpen (b : Browser) (domain_name : pystr)
| EvPrint (obj : dict).

(** The frame of [extract_session_key]: its two accumulators ([None] of
    [option] is Python's unbound local) and the trace so far. *)
Record State := mkState {
  session_key : option pyval;
  org_id : option pyval;
  trace : list Event
}.

Definition init_state : State := mkState None None [].

(** ** The monad *)

Module Py.

(** How a statement ends. *)
Inductive ctl (A : Type) :=
| Normal (a : A)
| Raise (e : exn)
| Return_
| Continue
| Exit (code : Z).
Arguments Normal {A} a.
Arguments Raise {A} e.
Arguments Return_ {A}.
Arguments Continue {A}.
Arguments Exit {A} code.

Definition M (A : Type) := Env -> State -> ctl A * State.

Definition ret {A} (a : A) : M A := fun _ s => (Normal a, s).

Definition bind {A B} (m : M A) (f : A -> M B) : M B :=
  fun env s =>
    match m env s with
    | (Normal a, s') => f a env s'
    | (Raise e, s') => (Raise e, s')
    | (Return_, s') => (Return_, s')
    | (Continue, s') => (Continue, s')
    | (Exit c, s') => (Exit c, s')
    end.

Definition raise {A} (e : exn) : M A := fun _ s => (Raise e, s).
Definition return_ {A} : M A := fun _ s => (Return_, s).
Definition continue {A} : M A := fun _ s => (Continue, s).

(** [sys.exit(code)] raises [SystemExit], which no [except Exception]
    clause catches. *)
Definition sys_exit {A} (code : Z) : M A := fun _ s => (Exit code, s).

(** [try: m  except ...: h e]. *)
Definition try_except {A} (m : M A) (h : exn -> M A) : M A :=
  fun env s =>
    match m env s with
    | (Raise e, s') => h e env s'
    | r => r
    end.

(** [for x in xs: body x]. *)
Fixpoint for_each {X} (xs : list X) (body : X -> M unit) : M unit :=
  match xs with
  | [] => ret tt
  | x :: rest =>
      fun env s =>
        match body x env s with
        | (Normal _, s') | (Continue, s') => for_each rest body env s'
        | r => r
        end
  end.

(** Calling a function: [return] ends the call normally. *)
Definition call (m : M unit) : M unit :=
  fun env s =>
    match m env s with
    | (Return_, s') => (Normal tt, s')
    | r => r
    end.

End Py.
Import Py.

Declare Scope py_scope.
Delimit Scope py_scope with py.
Notation "x <- m ;; k" := (bind m (fun x => k))
  (at level 61, m at next level, right associativity) : py_scope.
Notation "m ;; k" := (bind m (fun _ => k))
  (at level 61, right associativity) : py_scope.
Local Open Scope py_scope.

(** ** Primitive statements *)

Definition log (e : Event) (s : State) : State :=
  mkState (session_key s) (org_id s) (trace s ++ [e]).

(** [import browser_cookie3]. *)
Definition import_browser_cookie3 : M unit :=
  fun env s =>
    if has_browser_cookie3 env then (Normal tt, s) else (Raise ImportError, s).

(** [browser_func(domain_name=...)]: one attempt to open the store. *)
Definition browser_func (b : Browser) (domain_name : pystr) : M CookieJar :=
  fun env s =>
    match cookie_store env b domain_name with
    | inl e => (Raise e, log (EvOpen b domain_name) s)
    | inr cj => (Normal cj, log (EvOpen b domain_name) s)
    end.

(** [print(json.dumps(obj))]: the trace keeps the object, [stdout] below
    renders it. *)
Definition print_json (obj : dict) : M unit :=
  fun _ s => (Normal tt, log (EvPrint obj) s).

Definition set_session_key (v : pyval) : M unit :=
  fun _ s => (Normal tt, mkState (Some v) (org_id s) (trace s)).

Definition set_org_id (v : pyval) : M unit :=
  fun _ s => (Normal tt, mkState (session_key s) (Some v) (trace s)).

(** Reading a local that is not bound raises [UnboundLocalError]. *)
Definition read_local (get : State -> option pyval) : M pyval :=
  fun _ s =>
    match get s with
    | Some v => (Normal v, s)
    | None => (Raise OtherException, s)
    end.

(** [for cookie in cj: body cookie]. *)
Definition for_cookie (cj : CookieJar) (body : Cookie -> M unit) : M unit :=
  for_each (jar_cookies cj) body ;;
  match jar_fault cj with
  | Some e => raise e
  | None => ret tt
  end.

(** ** The script *)

Definition browsers : list (string * Browser) :=
  [ ("chrome", Chrome); ("firefox", Firefox); ("edge", Edge);
    ("chromium", Chromium) ]%string.

Definition missing_capability_result : dict :=
  [ (lit "error", PyStr (lit "browser_cookie3 not installed"));
    (lit "install", PyStr (lit "pip install browser-cookie3")) ].

Definition not_found_result : dict :=
  [ (lit "error", PyStr (lit "No Claude.ai session found in any browser")) ].

(** Lines 45-48, the body of the cookie loop. *)
Definition scan_cookie (cookie : Cookie) : M unit :=
  if pystr_eqb (name cookie) (lit "sessionKey") then
    set_session_key (PyStr (value cookie))
  else if pystr_eqb (name cookie) (lit "lastActiveOrg") then
    set_org_id (PyStr (value cookie))
  else ret tt.

(** Lines 50-58. *)
Definition report (nm : string) : M unit :=
  sk <- read_local session_key ;;
  if truthy sk then
    let result := [ (lit "sessionKey", sk); (lit "browser", PyStr (lit nm)) ] in
    oid <- read_local org_id ;;
    let result :=
      if truthy oid then dict_set (lit "organizationId") oid result
      else result in
    print_json result ;;
    return_
  else ret tt.

(** Lines 39-65, the body of the browser loop. *)
Definition probe (entry : string * Browser) : M unit :=
  let '(nm, b) := entry in
  try_except
    (cj <- browser_func b (lit ".claude.ai") ;;
     set_session_key PyNone ;;
     set_org_id PyNone ;;
     for_cookie cj scan_cookie ;;
     report nm)
    (fun e =>
       match e with
       | PermissionError => continue
       | _ => continue
       end).

(** Lines 20-68. *)
Definition extract_session_key : M unit :=
  try_except import_browser_cookie3
    (fun e =>
       match e with
       | ImportError => print_json missing_capability_result ;; sys_exit 1
       | _ => raise e
       end) ;;
  for_each browsers probe ;;
  print_json not_found_result ;;
  sys_exit 1.

(** Lines 71-72: the process. *)
Definition main : M unit := call extract_session_key.

(** ** Observations of one run *)

Definition run (env : Env) : ctl unit * State := main env init_state.

Fixpoint printed_of (t : list Event) : list dict :=
  match t with
  | [] => []
  | EvPrint d :: t' => d :: printed_of t'
  | EvOpen _ _ :: t' => printed_of t'
  end.

Fixpoint opened_of (t : list Event) : list Browser :=
  match t with
  | [] => []
  | EvOpen b _ :: t' => b :: opened_of t'
  | EvPrint _ :: t' => opened_of t'
  end.

(** The objects printed, in order. *)
Definition printed (env : Env) : list dict := printed_of (trace (snd (run env))).

(** The stores opened, in order, one entry per attempt. *)
Definition opened (env : Env) : list Browser := opened_of (trace (snd (run env))).

(** The text written to standard output: [print] ends each object with a
    newline. *)
Fixpoint stdout_of (ds : list dict) : string :=
  match ds with
  | [] => EmptyString
  | d :: ds' => (json_dumps d ++ str1 newline_char ++ stdout_of ds')%string
  end.

Definition stdout (env : Env) : string := stdout_of (printed env).

(** The exit status of the process; an uncaught exception ends it with 1. *)
Definition exit_code (env : Env) : Z :=
  match fst (run env) with
  | Normal _ | Return_ | Continue => 0%Z
  | Exit c => c
  | Raise _ => 1%Z
  end.

(** Did the script call [sys.exit]? *)
Definition called_exit (env : Env) : bool :=
  match fst (run env) with
  | Exit _ => true
  | _ => false
  end.

(** ** Vocabulary of the statements *)

(** The domain every store is opened for. *)
Definition claude_domain : pystr := lit ".claude.ai".

Definition key_name : pystr := lit "sessionKey".
Definition org_name : pystr := lit "lastActiveOrg".

(** The value of the last record of [cs] named [nm], if there is one. *)
Fixpoint last_value (nm : pystr) (cs : list Cookie) : option pystr :=
  match cs with
  | [] => None
  | c :: cs' =>
      match last_value nm cs' with
      | Some v => Some v
      | None => if pystr_eqb (name c) nm then Some (value c) else None
      end
  end.

(** Does some record of [cs] carry the name [nm]? *)
Definition has_record (nm : pystr) (cs : list Cookie) : bool :=
  existsb (fun c => pystr_eqb (name c) nm) cs.

(** What a complete scan of [cs] leaves in an accumulator reset to [None]. *)
Definition captured (nm : pystr) (cs : list Cookie) : pyval :=
  match last_value nm cs with
  | Some v => PyStr v
  | None => PyNone
  end.

(** The store of [b] opens, is scanned to its end without an exception, and
    the scan leaves a non-empty session key. *)
Definition yields_key (env : Env) (b : Browser) : bool :=
  match cookie_store env b claude_domain with
  | inl _ => false
  | inr cj =>
      match jar_fault cj with
      | Some _ => false
      | None => truthy (captured key_name (jar_cookies cj))
      end
  end.

(** The cookies of the store of [b] when it opens, none otherwise. *)
Definition cookies_of (env : Env) (b : Browser) : list Cookie :=
  match cookie_store env b claude_domain with
  | inl _ => []
  | inr cj => jar_cookies cj
  end.

(** The two shapes of a Success object. *)
Definition success_result (nm : string) (sk oid : pyval) : dict :=
  if truthy oid then
    [ (lit "sessionKey", sk); (lit "browser", PyStr (lit nm));
      (lit "organizationId", oid) ]
  else
    [ (lit "sessionKey", sk); (lit "browser", PyStr (lit nm)) ].

Definition open_events (es : list (string * Browser)) : list Event :=
  map (fun e => EvOpen (snd e) claude_domain) es.



(** ** The two statements that the script does not satisfy as written

    Both read "the store has a record of that name" where the script tests
    the truth value of what the scan captured. *)

(** The first browser, in the fixed order, whose store holds a record named
    [sessionKey] is the one named in the object printed. *)
Definition first_record_decides (env : Env) : Prop :=
  forall pre nm b post,
    has_browser_cookie3 env = true ->
    browsers = pre ++ (nm, b) :: post ->
    (forall e, In e pre -> has_record key_name (cookies_of env (snd e)) = false) ->
    has_record key_name (cookies_of env b) = true ->
    exists d, printed env = [d]
              /\ dict_get (lit "browser") d = Some (PyStr (lit nm)).

(** The Success object has the field [organizationId] exactly when the
    winning store holds a record named [lastActiveOrg]. *)
Definition org_field_iff_record (env : Env) : Prop :=
  forall pre nm b post,
    has_browser_cookie3 env = true ->
    browsers = pre ++ (nm, b) :: post ->
    (forall e, In e pre -> yields_key env (snd e) = false) ->
    yields_key env b = true ->
    exists d, printed env = [d]
              /\ (dict_has (lit "organizationId") d = true
                  <-> has_record org_name (cookies_of env b) = true).

(** ** Sample environments *)

Definition ck (n v : string) : Cookie := mkCookie (lit n) (lit v).

Definition jar (cs : list Cookie) : exn + CookieJar := inr (mkJar cs None).

(** [browser_cookie3] is missing; the stores would have had a key. *)
Definition env_no_capability : Env :=
  mkEnv false (fun _ _ => jar [ck "sessionKey" "sk-ant-sid01-abc"]).

(** No store can be opened. *)
Definition env_all_unavailable : Env :=
  mkEnv true (fun b _ =>
    match b with
    | Chrome => inl PermissionError
    | _ => inl OtherException
    end).

(** Chrome is locked, Firefox holds two [sessionKey] records. *)
Definition env_locked_then_found : Env :=
  mkEnv true (fun b _ =>
    match b with
    | Chrome => inl PermissionError
    | Firefox => jar [ck "sessionKey" "old"; ck "lastActiveOrg" "org-1";
                      ck "sessionKey" "new"]
    | Edge => jar [ck "sessionKey" "edge-key"]
    | Chromium => inl OtherException
    end).

(** Chrome holds a [sessionKey] record with an empty value. *)
Definition env_empty_key : Env :=
  mkEnv true (fun b _ =>
    match b with
    | Chrome => jar [ck "sessionKey" EmptyString; ck "lastActiveOrg" "org-1"]
    | Firefox => jar [ck "sessionKey" "fx-key"]
    | _ => inl OtherException
    end).

(** Chrome holds a [lastActiveOrg] record with an empty value. *)
Definition env_empty_org : Env :=
  mkEnv true (fun b _ =>
    match b with
    | Chrome => jar [ck "sessionKey" "cr-key"; ck "lastActiveOrg" EmptyString]
    | _ => inl OtherException
    end).

(** Iterating Chrome's store raises after two records. *)
Definition env_scan_fault : Env :=
  mkEnv true (fun b _ =>
    match b with
    | Chrome => inr (mkJar [ck "sessionKey" "cr-key"; ck "lastActiveOrg" "org-1"]
                           (Some OtherException))
    | Firefox => jar [ck "sessionKey" "fx-key"]
    | _ => inl OtherException
    end).

(** ** Comparing runs and environments *)

(** What a run shows to the outside: how it ended and what it did. *)
Definition observation (env : Env) : ctl unit * list Event :=
  (fst (run env), trace (snd (run env))).

(** What the loop gets out of the store of [b]: the two captured values when
    the store yields a key, nothing otherwise. *)
Definition store_view (env : Env) (b : Browser) : option (pyval * pyval) :=
  if yields_key env b
  then Some (captured key_name (cookies_of env b),
             captured org_name (cookies_of env b))
  else None.


(** The records the scan looks at. *)
Definition relevant (c : Cookie) : bool :=
  pystr_eqb (name c) key_name || pystr_eqb (name c) org_name.

(** Number of records of [cs] named [nm]. *)
Fixpoint count_named (nm : pystr) (cs : list Cookie) : nat :=
  match cs with
  | [] => O
  | c :: cs' =>
      if pystr_eqb (name c) nm then S (count_named nm cs') else count_named nm cs'
  end.

(** The environment in which every exception is replaced by [f] of it and
    every store hands out [g] of its records. *)
Definition map_store (f : exn -> exn) (g : list Cookie -> list Cookie)
           (env : Env) : Env :=
  mkEnv (has_browser_cookie3 env)
    (fun b d =>
       match cookie_store env b d with
       | inl e => inl (f e)
       | inr cj => inr (mkJar (g (jar_cookies cj)) (option_map f (jar_fault cj)))
       end).

(** Two results of opening a store that differ at most in the order of the
    records, neither of the two names occurring twice. *)
Definition same_up_to_order (r1 r2 : exn + CookieJar) : Prop :=
  match r1, r2 with
  | inl e1, inl e2 => e1 = e2
  | inr j1, inr j2 =>
      jar_fault j1 = jar_fault j2
      /\ Permutation (jar_cookies j1) (jar_cookies j2)
      /\ (count_named key_name (jar_cookies j1) <= 1)%nat
      /\ (count_named org_name (jar_cookies j1) <= 1)%nat
  | _, _ => False
  end.

(** Chrome holds one record of each name and a third one. *)
Definition env_three_records : Env :=
  mkEnv true (fun b _ =>
    match b with
    | Chrome => jar [ck "sessionKey" "cr-key"; ck "theme" "dark";
                     ck "lastActiveOrg" "org-1"]
    | _ => inl OtherException
    end).

(** The same, in another order. *)
Definition env_three_records_rotated : Env :=
  mkEnv true (fun b _ =>
    match b with
    | Chrome => jar [ck "theme" "dark"; ck "lastActiveOrg" "org-1";
                     ck "sessionKey" "cr-key"]
    | _ => inl OtherException
    end).


(** ** The host: the import and the readers in full

    [extract_session_key] above takes the import to raise [ImportError] or
    nothing, and the module to have its four readers. Line 24 catches
    [ImportError] only, and lines 31-36 read the four attributes of the
    module outside any [try]. A host says which exception the import raises,
    if any, and which readers the module has; [extract_session_key_host] is
    the script on such a host. *)

Record Host := mkHost {
  import_raises : option exn;
  has_reader : Browser -> bool;
  host_store : Browser -> pystr -> exn + CookieJar
}.

(** The stores of the host, with the import seen as a yes or no. *)
Definition env_of_host (h : Host) : Env :=
  mkEnv (match import_raises h with None => true | Some _ => false end)
        (host_store h).

(** [import browser_cookie3] on the host. *)
Definition import_module (h : Host) : M unit :=
  fun _ s =>
    match import_raises h with
    | None => (Normal tt, s)
    | Some e => (Raise e, s)
    end.

(** [browser_cookie3.<reader>]: [AttributeError] when the module lacks it. *)
Definition reader (h : Host) (b : Browser) : M Browser :=
  fun _ s =>
    if has_reader h b then (Normal b, s) else (Raise OtherException, s).

(** Lines 31-36: the list is built before the loop begins. *)
Definition browsers_of (h : Host) : M (list (string * Browser)) :=
  c <- reader h Chrome ;;
  f <- reader h Firefox ;;
  e <- reader h Edge ;;
  m <- reader h Chromium ;;
  ret [ ("chrome", c); ("firefox", f); ("edge", e); ("chromium", m) ]%string.

(** Lines 20-68 on a host. *)
Definition extract_session_key_host (h : Host) : M unit :=
  try_except (import_module h)
    (fun e =>
       match e with
       | ImportError => print_json missing_capability_result ;; sys_exit 1
       | _ => raise e
       end) ;;
  bs <- browsers_of h ;;
  for_each bs probe ;;
  print_json not_found_result ;;
  sys_exit 1.

Definition run_host (h : Host) : ctl unit * State :=
  call (extract_session_key_host h) (env_of_host h) init_state.

Definition printed_host (h : Host) : list dict :=
  printed_of (trace (snd (run_host h))).

Definition opened_host (h : Host) : list Browser :=
  opened_of (trace (snd (run_host h))).


(** The import raises [ImportError], or it succeeds and the module has the
    four readers: the paths the script provides for. *)
Definition handled (h : Host) : Prop :=
  import_raises h = Some ImportError
  \/ (import_raises h = None /\ forall b, has_reader h b = true).

(** ** Reading JSON text back

    A reader for the texts [json.dumps] writes for a dict: an object whose
    keys are strings and whose values are strings or [null], items separated
    by a comma and a space, key and value by a colon and a space. A string
    is read back as the UTF-16 code units its escapes spell. *)














(** ** Two more statements that the script does not satisfy as written *)


(** A record with an empty value counts as no record: a store that holds a
    [sessionKey] record with an empty value does not stop the loop, and a
    store that yields a key and holds a [lastActiveOrg] record with an empty
    value gives a Success object without [organizationId]. *)
Definition empty_record_is_absent (env : Env) : Prop :=
  (forall nm b rest s cj,
      cookie_store env b claude_domain = inr cj ->
      jar_fault cj = None ->
      In (mkCookie key_name []) (jar_cookies cj) ->
      exists s',
        for_each ((nm, b) :: rest) probe env s = for_each rest probe env s'
        /\ trace s' = trace s ++ [EvOpen b claude_domain])
  /\ (forall nm b s cj,
         cookie_store env b claude_domain = inr cj ->
         jar_fault cj = None ->
         truthy (captured key_name (jar_cookies cj)) = true ->
         In (mkCookie org_name []) (jar_cookies cj) ->
         trace (snd (probe (nm, b) env s))
         = trace s
             ++ [ EvOpen b claude_domain;
                  EvPrint [ (lit "sessionKey", captured key_name (jar_cookies cj));
                            (lit "browser", PyStr (lit nm)) ] ]).

(** The module is an old one, without the readers for Edge and Chromium. *)
Definition host_old_module : Host :=
  mkHost None
    (fun b => match b with Chrome | Firefox => true | _ => false end)
    (fun _ _ => jar [ck "sessionKey" "sk-ant-sid01-abc"]).

(** The import fails, but not with [ImportError]. *)
Definition host_broken_import : Host :=
  mkHost (Some OtherException) (fun _ => true)
    (fun _ _ => jar [ck "sessionKey" "sk-ant-sid01-abc"]).


(** The module cannot be found. *)
Definition host_no_module : Host :=
  mkHost (Some ImportError) (fun _ => false)
    (fun _ _ => jar [ck "sessionKey" "sk-ant-sid01-abc"]).

(** Chrome holds an empty [sessionKey] record followed by a real one, and
    likewise for [lastActiveOrg]. *)
Definition env_empty_then_value : Env :=
  mkEnv true (fun b _ =>
    match b with
    | Chrome => jar [ck "sessionKey" EmptyString; ck "sessionKey" "cr-key";
                     ck "lastActiveOrg" EmptyString; ck "lastActiveOrg" "org-1"]
    | Firefox => jar [ck "sessionKey" "fx-key"]
    | _ => inl OtherException
    end).

(** * Properties *)

(** ** Strings and JSON text *)

Lemma pystr_eqb_eq (a b : pystr) : pystr_eqb a b = true <-> a = b.
Proof.
  revert b; induction a as [|x a IH]; intros [|y b]; simpl; split;
    try congruence; try discriminate.
  - intros H. apply andb_true_iff in H as [Hx Hab].
    apply N.eqb_eq in Hx. apply IH in Hab. congruence.
  - intros H. injection H as -> ->.
    rewrite N.eqb_refl. simpl. apply IH. reflexivity.
Qed.

Lemma pystr_eqb_refl (a : pystr) : pystr_eqb a a = true.
Proof. apply pystr_eqb_eq. reflexivity. Qed.















(** ** The cookie scan (lines 44-48) *)

Arguments lit : simpl never.

Lemma key_is_not_org (n : pystr) :
  pystr_eqb n key_name = true -> pystr_eqb n org_name = false.
Proof.
  intros H. apply pystr_eqb_eq in H. subst n. reflexivity.
Qed.

(** A complete pass over [cs] overwrites each accumulator with the value of
    the last record of its name and leaves it alone when there is none. *)
Lemma scan_spec (env : Env) (cs : list Cookie) (s : State) :
  for_each cs scan_cookie env s =
    (Normal tt,
     mkState
       (match last_value key_name cs with
        | Some v => Some (PyStr v)
        | None => session_key s
        end)
       (match last_value org_name cs with
        | Some v => Some (PyStr v)
        | None => org_id s
        end)
       (trace s)).
Proof.
  revert s; induction cs as [|c cs IH]; intros s.
  - destruct s; reflexivity.
  - cbn [for_each]. unfold scan_cookie at 1.
    change (lit "sessionKey") with key_name.
    change (lit "lastActiveOrg") with org_name.
    cbn [last_value].
    destruct (pystr_eqb (name c) key_name) eqn:Hk.
    + rewrite (key_is_not_org _ Hk). unfold set_session_key. rewrite IH.
      cbn [session_key org_id trace].
      destruct (last_value key_name cs), (last_value org_name cs); reflexivity.
    + destruct (pystr_eqb (name c) org_name) eqn:Ho.
      * unfold set_org_id. rewrite IH. cbn [session_key org_id trace].
        destruct (last_value key_name cs), (last_value org_name cs); reflexivity.
      * unfold ret. rewrite IH.
        destruct (last_value key_name cs), (last_value org_name cs); reflexivity.
Qed.

(** The last record of a name decides [last_value]. *)
Lemma last_value_last (nm v : pystr) (pre post : list Cookie) :
  has_record nm post = false ->
  last_value nm (pre ++ mkCookie nm v :: post) = Some v.
Proof.
  intros Hpost.
  assert (Hnone : last_value nm post = None).
  { induction post as [|c post IH]; [reflexivity|].
    cbn [has_record existsb] in Hpost. apply orb_false_iff in Hpost as [Hc Hp].
    cbn [last_value]. rewrite (IH Hp), Hc. reflexivity. }
  induction pre as [|c pre IH]; cbn [app last_value].
  - rewrite Hnone. cbn [name value]. rewrite pystr_eqb_refl. reflexivity.
  - rewrite IH. reflexivity.
Qed.

Lemma last_value_none (nm : pystr) (cs : list Cookie) :
  last_value nm cs = None <-> has_record nm cs = false.
Proof.
  induction cs as [|c cs IH]; cbn [last_value has_record existsb]; [tauto|].
  fold (has_record nm cs).
  destruct (last_value nm cs) as [v|].
  - split; [discriminate|]. intros H. apply orb_false_iff in H as [_ H].
    apply IH in H. discriminate.
  - destruct (pystr_eqb (name c) nm); cbn [orb]; [split; discriminate|].
    split; intros _; [apply IH|]; reflexivity.
Qed.

(** ** One browser (lines 39-65) *)

Lemma success_result_set (nm : string) (sk oid : pyval) :
  (if truthy oid
   then dict_set (lit "organizationId") oid
          [ (lit "sessionKey", sk); (lit "browser", PyStr (lit nm)) ]
   else [ (lit "sessionKey", sk); (lit "browser", PyStr (lit nm)) ])
  = success_result nm sk oid.
Proof. unfold success_result. destruct (truthy oid); reflexivity. Qed.

Lemma captured_after_reset (nm : pystr) (cs : list Cookie) :
  match last_value nm cs with
  | Some v => Some (PyStr v)
  | None => Some PyNone
  end = Some (captured nm cs).
Proof. unfold captured. destruct (last_value nm cs); reflexivity. Qed.

(** What probing one browser does, case by case. *)
Lemma probe_eq (nm : string) (b : Browser) (env : Env) (s : State) :
  probe (nm, b) env s =
    match cookie_store env b claude_domain with
    | inl _ => (Continue, log (EvOpen b claude_domain) s)
    | inr cj =>
        let sk := captured key_name (jar_cookies cj) in
        let oid := captured org_name (jar_cookies cj) in
        let s1 := mkState (Some sk) (Some oid) (trace s ++ [EvOpen b claude_domain]) in
        match jar_fault cj with
        | Some _ => (Continue, s1)
        | None =>
            if truthy sk
            then (Return_, log (EvPrint (success_result nm sk oid)) s1)
            else (Normal tt, s1)
        end
    end.
Proof.
  unfold probe, try_except, bind at 1, browser_func.
  change (lit ".claude.ai") with claude_domain.
  destruct (cookie_store env b claude_domain) as [e|cj].
  - destruct e; reflexivity.
  - unfold bind at 1, set_session_key. unfold bind at 1, set_org_id.
    unfold bind at 1, for_cookie. unfold bind at 1. rewrite scan_spec.
    cbn [session_key org_id trace log].
    rewrite !captured_after_reset.
    destruct (jar_fault cj) as [e|].
    + unfold raise. destruct e; reflexivity.
    + unfold ret, report, bind at 1, read_local. cbn [session_key].
      destruct (truthy (captured key_name (jar_cookies cj))) eqn:Hsk.
      * unfold bind, read_local, print_json, return_, log.
        cbn [org_id session_key trace].
        rewrite success_result_set. reflexivity.
      * reflexivity.
Qed.

Lemma probe_skip (nm : string) (b : Browser) (env : Env) (s : State) :
  yields_key env b = false ->
  exists s',
    (probe (nm, b) env s = (Normal tt, s') \/ probe (nm, b) env s = (Continue, s'))
    /\ trace s' = trace s ++ [EvOpen b claude_domain].
Proof.
  intros Hy. rewrite probe_eq. unfold yields_key in Hy.
  destruct (cookie_store env b claude_domain) as [e|cj].
  - eexists; split; [right; reflexivity|reflexivity].
  - cbv zeta. destruct (jar_fault cj).
    + eexists; split; [right; reflexivity|reflexivity].
    + rewrite Hy. eexists; split; [left; reflexivity|reflexivity].
Qed.

Lemma probe_win (nm : string) (b : Browser) (env : Env) (s : State) :
  yields_key env b = true ->
  exists s',
    probe (nm, b) env s = (Return_, s')
    /\ trace s' =
         trace s ++ [ EvOpen b claude_domain;
                      EvPrint (success_result nm
                                 (captured key_name (cookies_of env b))
                                 (captured org_name (cookies_of env b))) ].
Proof.
  intros Hy. rewrite probe_eq. unfold yields_key in Hy. unfold cookies_of.
  destruct (cookie_store env b claude_domain) as [e|cj]; [discriminate|].
  cbv zeta. destruct (jar_fault cj); [discriminate|].
  rewrite Hy. eexists; split; [reflexivity|].
  unfold log. cbn [trace]. rewrite <- app_assoc. reflexivity.
Qed.

(** The effect of probing a browser does not depend on what the accumulators
    held when the iteration began. *)
Lemma probe_independent (e : string * Browser) (env : Env) (s1 s2 : State) :
  trace s1 = trace s2 ->
  fst (probe e env s1) = fst (probe e env s2)
  /\ trace (snd (probe e env s1)) = trace (snd (probe e env s2)).
Proof.
  intros Ht. destruct e as [nm b]. rewrite !probe_eq.
  destruct (cookie_store env b claude_domain) as [e|cj].
  - unfold log. cbn [fst snd trace]. rewrite Ht. auto.
  - cbv zeta. destruct (jar_fault cj).
    + cbn [fst snd trace]. rewrite Ht. auto.
    + destruct (truthy (captured key_name (jar_cookies cj)));
        unfold log; cbn [fst snd trace]; rewrite Ht; auto.
Qed.

(** ** The browser loop (lines 38-65) *)

Lemma loop_step (e : string * Browser) (rest : list (string * Browser))
      (env : Env) (s s' : State) :
  probe e env s = (Normal tt, s') \/ probe e env s = (Continue, s') ->
  for_each (e :: rest) probe env s = for_each rest probe env s'.
Proof. intros [H|H]; cbn [for_each]; rewrite H; reflexivity. Qed.

Lemma loop_independent (es : list (string * Browser)) (env : Env) (s1 s2 : State) :
  trace s1 = trace s2 ->
  fst (for_each es probe env s1) = fst (for_each es probe env s2)
  /\ trace (snd (for_each es probe env s1)) = trace (snd (for_each es probe env s2)).
Proof.
  revert s1 s2; induction es as [|e es IH]; intros s1 s2 Ht.
  - cbn. auto.
  - destruct (probe_independent e env s1 s2 Ht) as [Hc Htr].
    cbn [for_each].
    destruct (probe e env s1) as [c1 t1], (probe e env s2) as [c2 t2].
    cbn [fst snd] in Hc, Htr. subst c2.
    destruct c1 as [[]| | | |]; cbn [fst snd]; auto.
Qed.

Lemma loop_none (es : list (string * Browser)) (env : Env) (s : State) :
  (forall e, In e es -> yields_key env (snd e) = false) ->
  fst (for_each es probe env s) = Normal tt
  /\ trace (snd (for_each es probe env s)) = trace s ++ open_events es.
Proof.
  revert s; induction es as [|[nm b] es IH]; intros s Hno.
  - cbn. rewrite app_nil_r. auto.
  - destruct (probe_skip nm b env s) as (s' & Hp & Ht).
    { apply (Hno (nm, b)). left. reflexivity. }
    rewrite (loop_step _ _ _ _ _ Hp).
    destruct (IH s') as [Hc Htr]. { intros e He. apply Hno. right. exact He. }
    rewrite Hc, Htr, Ht, <- app_assoc. auto.
Qed.

Lemma loop_first (pre post : list (string * Browser)) (nm : string) (b : Browser)
      (env : Env) (s : State) :
  (forall e, In e pre -> yields_key env (snd e) = false) ->
  yields_key env b = true ->
  fst (for_each (pre ++ (nm, b) :: post) probe env s) = Return_
  /\ trace (snd (for_each (pre ++ (nm, b) :: post) probe env s)) =
       trace s ++ open_events pre
         ++ [ EvOpen b claude_domain;
              EvPrint (success_result nm
                         (captured key_name (cookies_of env b))
                         (captured org_name (cookies_of env b))) ].
Proof.
  revert s; induction pre as [|[nm' b'] pre IH]; intros s Hno Hy.
  - destruct (probe_win nm b env s Hy) as (s' & Hp & Ht).
    cbn [app for_each open_events map]. rewrite Hp. cbn [fst snd]. auto.
  - destruct (probe_skip nm' b' env s) as (s' & Hp & Ht).
    { apply (Hno (nm', b')). left. reflexivity. }
    cbn [app]. rewrite (loop_step _ _ _ _ _ Hp).
    destruct (IH s') as [Hc Htr]; [intros e He; apply Hno; right; exact He|exact Hy|].
    rewrite Hc, Htr, Ht, <- app_assoc. auto.
Qed.

(** A list either has no element satisfying a test, or splits at the first
    one that does. *)
Lemma first_split {X} (f : X -> bool) (xs : list X) :
  (forall x, In x xs -> f x = false)
  \/ exists pre x post,
       xs = pre ++ x :: post /\ (forall y, In y pre -> f y = false) /\ f x = true.
Proof.
  induction xs as [|x xs IH].
  - left. intros x [].
  - destruct (f x) eqn:Hx.
    + right. exists [], x, xs. repeat split; [intros y []|exact Hx].
    + destruct IH as [Hno|(pre & y & post & -> & Hpre & Hy)].
      * left. intros y [<-|Hin]; auto.
      * right. exists (x :: pre), y, post. repeat split; [|exact Hy].
        intros z [<-|Hin]; auto.
Qed.

(** ** The whole run (lines 20-72) *)

Lemma run_no_capability (env : Env) :
  has_browser_cookie3 env = false ->
  run env = (Exit 1%Z, mkState None None [EvPrint missing_capability_result]).
Proof.
  intros H. unfold run, main, call, extract_session_key, bind at 1, try_except,
    import_browser_cookie3.
  rewrite H. reflexivity.
Qed.

Lemma run_capability (env : Env) :
  has_browser_cookie3 env = true ->
  run env =
    match for_each browsers probe env init_state with
    | (Normal _, s') => (Exit 1%Z, log (EvPrint not_found_result) s')
    | (Return_, s') => (Normal tt, s')
    | (Raise e, s') => (Raise e, s')
    | (Continue, s') => (Continue, s')
    | (Exit c, s') => (Exit c, s')
    end.
Proof.
  intros H. unfold run, main, call, extract_session_key, bind at 1, try_except,
    import_browser_cookie3.
  rewrite H. unfold bind at 1.
  destruct (for_each browsers probe env init_state) as [[[]| | | |] s']; reflexivity.
Qed.

Lemma run_not_found (env : Env) :
  has_browser_cookie3 env = true ->
  (forall e, In e browsers -> yields_key env (snd e) = false) ->
  fst (run env) = Exit 1%Z
  /\ trace (snd (run env)) = open_events browsers ++ [EvPrint not_found_result].
Proof.
  intros Hcap Hno. rewrite (run_capability env Hcap).
  destruct (loop_none browsers env init_state Hno) as [Hc Ht].
  destruct (for_each browsers probe env init_state) as [c s'].
  cbn [fst snd] in Hc, Ht. subst c. unfold log. cbn [fst snd trace].
  rewrite Ht. auto.
Qed.

Lemma run_found (env : Env) (pre post : list (string * Browser))
      (nm : string) (b : Browser) :
  has_browser_cookie3 env = true ->
  browsers = pre ++ (nm, b) :: post ->
  (forall e, In e pre -> yields_key env (snd e) = false) ->
  yields_key env b = true ->
  fst (run env) = Normal tt
  /\ trace (snd (run env)) =
       open_events pre
         ++ [ EvOpen b claude_domain;
              EvPrint (success_result nm
                         (captured key_name (cookies_of env b))
                         (captured org_name (cookies_of env b))) ].
Proof.
  intros Hcap Hsplit Hno Hy. rewrite (run_capability env Hcap), Hsplit.
  destruct (loop_first pre post nm b env init_state Hno Hy) as [Hc Ht].
  destruct (for_each (pre ++ (nm, b) :: post) probe env init_state) as [c s'].
  cbn [fst snd] in Hc, Ht. subst c. cbn [fst snd]. auto.
Qed.

Lemma printed_of_app (t1 t2 : list Event) :
  printed_of (t1 ++ t2) = printed_of t1 ++ printed_of t2.
Proof.
  induction t1 as [|[b d|d] t1 IH]; cbn [app printed_of]; rewrite ?IH; reflexivity.
Qed.

Lemma opened_of_app (t1 t2 : list Event) :
  opened_of (t1 ++ t2) = opened_of t1 ++ opened_of t2.
Proof.
  induction t1 as [|[b d|d] t1 IH]; cbn [app opened_of]; rewrite ?IH; reflexivity.
Qed.

Lemma printed_of_open_events (es : list (string * Browser)) :
  printed_of (open_events es) = [].
Proof. induction es as [|e es IH]; [reflexivity|exact IH]. Qed.

Lemma opened_of_open_events (es : list (string * Browser)) :
  opened_of (open_events es) = map snd es.
Proof.
  induction es as [|e es IH]; [reflexivity|].
  cbn [open_events map opened_of]. f_equal. exact IH.
Qed.

(** Every run takes one of three paths. *)
Lemma run_cases (env : Env) :
  (has_browser_cookie3 env = false
   /\ fst (run env) = Exit 1%Z
   /\ trace (snd (run env)) = [EvPrint missing_capability_result])
  \/ (has_browser_cookie3 env = true
      /\ (forall e, In e browsers -> yields_key env (snd e) = false)
      /\ fst (run env) = Exit 1%Z
      /\ trace (snd (run env)) = open_events browsers ++ [EvPrint not_found_result])
  \/ (exists pre nm b post,
        has_browser_cookie3 env = true
        /\ browsers = pre ++ (nm, b) :: post
        /\ (forall e, In e pre -> yields_key env (snd e) = false)
        /\ yields_key env b = true
        /\ fst (run env) = Normal tt
        /\ trace (snd (run env)) =
             open_events pre
               ++ [ EvOpen b claude_domain;
                    EvPrint (success_result nm
                               (captured key_name (cookies_of env b))
                               (captured org_name (cookies_of env b))) ]).
Proof.
  destruct (has_browser_cookie3 env) eqn:Hcap.
  - right.
    destruct (first_split (fun e => yields_key env (snd e)) browsers)
      as [Hno|(pre & [nm b] & post & Hsplit & Hpre & Hy)].
    + left. destruct (run_not_found env Hcap Hno) as [Hc Ht]. auto.
    + right. exists pre, nm, b, post.
      destruct (run_found env pre post nm b Hcap Hsplit Hpre Hy) as [Hc Ht]. auto 10.
  - left. rewrite (run_no_capability env Hcap). auto.
Qed.

Lemma success_result_fields (nm : string) (sk oid : pyval) :
  dict_get (lit "sessionKey") (success_result nm sk oid) = Some sk
  /\ dict_get (lit "browser") (success_result nm sk oid) = Some (PyStr (lit nm))
  /\ dict_get (lit "organizationId") (success_result nm sk oid) =
       (if truthy oid then Some oid else None).
Proof. unfold success_result. destruct (truthy oid); repeat split; reflexivity. Qed.

Lemma prefix_of_browsers (pre post : list (string * Browser)) (nm : string) (b : Browser) :
  browsers = pre ++ (nm, b) :: post ->
  map snd pre ++ [b] = firstn (S (List.length pre)) [Chrome; Firefox; Edge; Chromium].
Proof.
  intros H. change [Chrome; Firefox; Edge; Chromium] with (map snd browsers).
  rewrite H, map_app. cbn [map snd].
  change (map snd pre ++ b :: map snd post)
    with (map snd pre ++ [b] ++ map snd post).
  rewrite app_assoc.
  replace (S (List.length pre)) with (List.length (map snd pre ++ [b]) + 0)%nat
    by (rewrite length_app, length_map; cbn; lia).
  rewrite firstn_app_2. cbn [firstn]. rewrite app_nil_r. reflexivity.
Qed.

(** The stores opened are an initial segment of the fixed order. *)
Lemma opened_prefix (env : Env) :
  exists k, opened env = firstn k [Chrome; Firefox; Edge; Chromium].
Proof.
  unfold opened.
  destruct (run_cases env) as [(_ & _ & Ht)|[(_ & _ & _ & Ht)|
    (pre & nm & b & post & _ & Hs & _ & _ & _ & Ht)]]; rewrite Ht.
  - exists O. reflexivity.
  - exists 4%nat. reflexivity.
  - exists (S (List.length pre)).
    rewrite opened_of_app, opened_of_open_events. cbn [opened_of].
    apply (prefix_of_browsers pre post nm b Hs).
Qed.

Lemma printed_found (env : Env) (pre post : list (string * Browser))
      (nm : string) (b : Browser) :
  has_browser_cookie3 env = true ->
  browsers = pre ++ (nm, b) :: post ->
  (forall e, In e pre -> yields_key env (snd e) = false) ->
  yields_key env b = true ->
  printed env = [ success_result nm (captured key_name (cookies_of env b))
                    (captured org_name (cookies_of env b)) ]
  /\ opened env = map snd pre ++ [b]
  /\ fst (run env) = Normal tt.
Proof.
  intros Hcap Hs Hpre Hy.
  destruct (run_found env pre post nm b Hcap Hs Hpre Hy) as [Hc Ht].
  unfold printed, opened. rewrite Ht.
  rewrite printed_of_app, opened_of_app, printed_of_open_events,
    opened_of_open_events.
  repeat split; try reflexivity; exact Hc.
Qed.

Lemma printed_not_found (env : Env) :
  has_browser_cookie3 env = true ->
  (forall e, In e browsers -> yields_key env (snd e) = false) ->
  printed env = [not_found_result]
  /\ opened env = [Chrome; Firefox; Edge; Chromium]
  /\ fst (run env) = Exit 1%Z.
Proof.
  intros Hcap Hno. destruct (run_not_found env Hcap Hno) as [Hc Ht].
  unfold printed, opened. rewrite Ht.
  rewrite printed_of_app, opened_of_app, printed_of_open_events,
    opened_of_open_events.
  repeat split; try reflexivity; exact Hc.
Qed.

(** ** The claims *)

(** C1, as the script has it. The browsers are probed in the fixed order
    chrome, firefox, edge, chromium. The first browser in this order whose
    store opens, is scanned to its end without an exception and leaves a
    non-empty session key (the value of its last [sessionKey] record) is the
    one the Success object names, with that key; the stores opened are the
    browsers up to and including it, so no later browser is consulted. *)
Theorem first_yielding_browser_wins (env : Env) :
  map fst browsers = ["chrome"; "firefox"; "edge"; "chromium"]%string
  /\ (exists k, opened env = firstn k [Chrome; Firefox; Edge; Chromium])
  /\ forall pre nm b post,
       has_browser_cookie3 env = true ->
       browsers = pre ++ (nm, b) :: post ->
       (forall e, In e pre -> yields_key env (snd e) = false) ->
       yields_key env b = true ->
       exists d,
         printed env = [d]
         /\ dict_get (lit "browser") d = Some (PyStr (lit nm))
         /\ dict_get (lit "sessionKey") d = Some (captured key_name (cookies_of env b))
         /\ opened env = map snd pre ++ [b].
Proof.
  split; [reflexivity|]. split; [apply opened_prefix|].
  intros pre nm b post Hcap Hs Hpre Hy.
  destruct (printed_found env pre post nm b Hcap Hs Hpre Hy) as (Hp & Ho & _).
  eexists. split; [exact Hp|].
  destruct (success_result_fields nm (captured key_name (cookies_of env b))
              (captured org_name (cookies_of env b))) as (Hk & Hb & _).
  auto.
Qed.

(** C1, as written, fails: Chrome's store holds a [sessionKey] record, with
    an empty value, and the object printed names firefox. *)
Lemma first_record_decides_fails : ~ first_record_decides env_empty_key.
Proof.
  intros H.
  destruct (H [] "chrome"%string Chrome
              [("firefox", Firefox); ("edge", Edge); ("chromium", Chromium)]%string)
    as (d & Hp & Hb); try reflexivity.
  - intros e [].
  - vm_compute in Hp. injection Hp as <-. vm_compute in Hb. discriminate.
Qed.

Lemma first_yielding_browser_wins_witness :
  exists d,
    printed env_locked_then_found = [d]
    /\ dict_get (lit "browser") d = Some (PyStr (lit "firefox"))
    /\ dict_get (lit "sessionKey") d = Some (PyStr (lit "new"))
    /\ opened env_locked_then_found = [Chrome; Firefox].
Proof.
  destruct (first_yielding_browser_wins env_locked_then_found) as (_ & _ & H).
  apply (H [("chrome", Chrome)]%string "firefox"%string Firefox
           [("edge", Edge); ("chromium", Chromium)]%string).
  - reflexivity.
  - reflexivity.
  - intros e [<-|[]]. reflexivity.
  - reflexivity.
Defined.

(** C2. When [browser_cookie3] cannot be imported, the script prints the
    Failure object with the fixed message and the install hint, ends with
    exit status 1 through [sys.exit], and opens no store. *)
Theorem missing_capability_short_circuits (env : Env) :
  has_browser_cookie3 env = false ->
  printed env = [missing_capability_result]
  /\ dict_get (lit "error") missing_capability_result
       = Some (PyStr (lit "browser_cookie3 not installed"))
  /\ dict_get (lit "install") missing_capability_result
       = Some (PyStr (lit "pip install browser-cookie3"))
  /\ fst (run env) = Exit 1%Z
  /\ exit_code env <> 0%Z
  /\ opened env = [].
Proof.
  intros H. unfold printed, opened, exit_code.
  rewrite (run_no_capability env H). cbn [fst snd trace printed_of opened_of].
  repeat split; try reflexivity. discriminate.
Qed.

Lemma missing_capability_short_circuits_witness :
  has_browser_cookie3 env_no_capability = false
  /\ printed env_no_capability = [missing_capability_result]
  /\ exit_code env_no_capability <> 0%Z
  /\ opened env_no_capability = [].
Proof.
  split; [reflexivity|].
  destruct (missing_capability_short_circuits env_no_capability eq_refl)
    as (Hp & _ & _ & _ & Hx & Ho).
  auto.
Defined.

(** C3. With the import working: when every browser has been tried and none
    yielded a session key, the script prints the Failure object with the
    fixed not-found message and calls [sys.exit(1)]; when some browser
    yields one, the script prints a Success object and returns without
    calling [sys.exit], so the exit status is 0. *)
Theorem not_found_exits_nonzero (env : Env) :
  has_browser_cookie3 env = true ->
  ((forall e, In e browsers -> yields_key env (snd e) = false) ->
     opened env = [Chrome; Firefox; Edge; Chromium]
     /\ printed env = [not_found_result]
     /\ dict_get (lit "error") not_found_result
          = Some (PyStr (lit "No Claude.ai session found in any browser"))
     /\ called_exit env = true
     /\ exit_code env = 1%Z)
  /\ ((exists e, In e browsers /\ yields_key env (snd e) = true) ->
        (exists nm sk oid, printed env = [success_result nm sk oid])
        /\ called_exit env = false
        /\ exit_code env = 0%Z).
Proof.
  intros Hcap. split.
  - intros Hno. destruct (printed_not_found env Hcap Hno) as (Hp & Ho & Hc).
    unfold called_exit, exit_code. rewrite Hc. auto.
  - intros (e & Hin & Hy).
    destruct (first_split (fun e => yields_key env (snd e)) browsers)
      as [Hno|(pre & [nm b] & post & Hs & Hpre & Hb)].
    + rewrite (Hno e Hin) in Hy. discriminate.
    + destruct (printed_found env pre post nm b Hcap Hs Hpre Hb) as (Hp & _ & Hc).
      unfold called_exit, exit_code. rewrite Hc. eauto 6.
Qed.

Lemma not_found_exits_nonzero_witness :
  (printed env_all_unavailable = [not_found_result]
   /\ exit_code env_all_unavailable = 1%Z)
  /\ (called_exit env_locked_then_found = false
      /\ exit_code env_locked_then_found = 0%Z).
Proof.
  split.
  - destruct (not_found_exits_nonzero env_all_unavailable eq_refl) as [H _].
    destruct H as (_ & Hp & _ & _ & Hx).
    + intros e [<-|[<-|[<-|[<-|[]]]]]; reflexivity.
    + auto.
  - destruct (not_found_exits_nonzero env_locked_then_found eq_refl) as [_ H].
    destruct H as (_ & Hc & Hx).
    + exists ("firefox"%string, Firefox). split; [right; left|]; reflexivity.
    + auto.
Defined.

Lemma run_ends_normally_or_exits (env : Env) :
  fst (run env) = Normal tt \/ fst (run env) = Exit 1%Z.
Proof.
  destruct (run_cases env) as [(_ & Hc & _)|[(_ & _ & Hc & _)|
    (pre & nm & b & post & _ & _ & _ & _ & Hc & _)]]; auto.
Qed.

Lemma opened_nodup (env : Env) : NoDup (opened env).
Proof.
  destruct (opened_prefix env) as [k ->].
  destruct k as [|[|[|[|k]]]]; cbn [firstn]; rewrite ?firstn_nil;
    repeat (constructor; [cbn [In]; intuition discriminate|]); constructor.
Qed.

(** C4. When opening a browser's store raises, be it [PermissionError] or
    any other exception, the loop goes on with the next browser: the store
    was opened once, nothing was printed, no exception leaves the loop.
    Over a whole run no store is opened twice and no exception ends the
    run. *)
Theorem store_error_skips_to_next (env : Env) :
  (forall nm b rest s e,
      cookie_store env b claude_domain = inl e ->
      for_each ((nm, b) :: rest) probe env s
      = for_each rest probe env (log (EvOpen b claude_domain) s))
  /\ (forall e, fst (run env) <> Raise e)
  /\ NoDup (opened env).
Proof.
  split; [|split].
  - intros nm b rest s e He. apply loop_step. right.
    rewrite probe_eq, He. reflexivity.
  - intros e He. destruct (run_ends_normally_or_exits env) as [H|H];
      rewrite H in He; discriminate.
  - apply opened_nodup.
Qed.

Lemma store_error_skips_to_next_witness :
  for_each browsers probe env_locked_then_found init_state
  = for_each (tl browsers) probe env_locked_then_found
      (log (EvOpen Chrome claude_domain) init_state)
  /\ for_each (tl browsers) probe env_all_unavailable init_state
     = for_each (tl (tl browsers)) probe env_all_unavailable
         (log (EvOpen Firefox claude_domain) init_state).
Proof.
  split.
  - destruct (store_error_skips_to_next env_locked_then_found) as (H & _ & _).
    apply (H "chrome"%string Chrome (tl browsers) init_state PermissionError).
    reflexivity.
  - destruct (store_error_skips_to_next env_all_unavailable) as (H & _ & _).
    apply (H "firefox"%string Firefox (tl (tl browsers)) init_state OtherException).
    reflexivity.
Defined.

(** C5. A pass over the records of an opened store puts into [session_key]
    the value of the last record named [sessionKey] and into [org_id] the
    value of the last record named [lastActiveOrg], each independently of the
    other; when the store is the one reported, the Success object carries
    these last values. *)
Theorem scan_keeps_last_value (env : Env) :
  (forall cs s,
      for_each cs scan_cookie env s =
        (Normal tt,
         mkState
           (match last_value key_name cs with
            | Some v => Some (PyStr v)
            | None => session_key s
            end)
           (match last_value org_name cs with
            | Some v => Some (PyStr v)
            | None => org_id s
            end)
           (trace s)))
  /\ (forall nm v pre post,
         has_record nm post = false ->
         last_value nm (pre ++ mkCookie nm v :: post) = Some v)
  /\ (forall nm b cs s pre v post,
         cookie_store env b claude_domain = inr (mkJar cs None) ->
         cs = pre ++ mkCookie key_name v :: post ->
         has_record key_name post = false ->
         v <> [] ->
         exists d,
           trace (snd (probe (nm, b) env s))
             = trace s ++ [EvOpen b claude_domain; EvPrint d]
           /\ dict_get (lit "sessionKey") d = Some (PyStr v)
           /\ forall pre' o post',
                cs = pre' ++ mkCookie org_name o :: post' ->
                has_record org_name post' = false ->
                o <> [] ->
                dict_get (lit "organizationId") d = Some (PyStr o)).
Proof.
  split; [|split].
  - intros cs s. apply scan_spec.
  - intros nm v pre post. apply last_value_last.
  - intros nm b cs s pre v post Hstore Hcs Hpost Hv.
    assert (Hk : captured key_name cs = PyStr v).
    { unfold captured. rewrite Hcs, (last_value_last _ _ _ _ Hpost). reflexivity. }
    assert (Hy : yields_key env b = true).
    { unfold yields_key. rewrite Hstore. cbn [jar_fault jar_cookies].
      rewrite Hk. destruct v; [contradiction|reflexivity]. }
    destruct (probe_win nm b env s Hy) as (s' & Hp & Ht).
    rewrite Hp. cbn [snd]. eexists. split; [exact Ht|].
    unfold cookies_of. rewrite Hstore. cbn [jar_cookies].
    destruct (success_result_fields nm (captured key_name cs) (captured org_name cs))
      as (Hsk & _ & Ho).
    split; [rewrite Hsk, Hk; reflexivity|].
    intros pre' o post' Hcs' Hpost' Hne.
    assert (Hoc : captured org_name cs = PyStr o).
    { unfold captured. rewrite Hcs', (last_value_last _ _ _ _ Hpost'). reflexivity. }
    rewrite Ho, Hoc. destruct o; [contradiction|reflexivity].
Qed.

Lemma scan_keeps_last_value_witness :
  exists d,
    trace (snd (probe ("firefox"%string, Firefox) env_locked_then_found init_state))
      = [EvOpen Firefox claude_domain; EvPrint d]
    /\ dict_get (lit "sessionKey") d = Some (PyStr (lit "new")).
Proof.
  destruct (scan_keeps_last_value env_locked_then_found) as (_ & _ & H).
  destruct (H "firefox"%string Firefox
              [ck "sessionKey" "old"; ck "lastActiveOrg" "org-1"; ck "sessionKey" "new"]
              init_state
              [ck "sessionKey" "old"; ck "lastActiveOrg" "org-1"] (lit "new") [])
    as (d & Ht & Hk & _).
  - reflexivity.
  - reflexivity.
  - reflexivity.
  - discriminate.
  - exists d. split; [exact Ht|exact Hk].
Defined.

(** Every run prints one object, of one of three shapes. *)
Lemma printed_shapes (env : Env) :
  printed env = [missing_capability_result]
  \/ printed env = [not_found_result]
  \/ exists nm b cj,
       In (nm, b) browsers
       /\ cookie_store env b claude_domain = inr cj
       /\ jar_fault cj = None
       /\ truthy (captured key_name (jar_cookies cj)) = true
       /\ printed env = [ success_result nm (captured key_name (jar_cookies cj))
                            (captured org_name (jar_cookies cj)) ].
Proof.
  destruct (run_cases env) as [(_ & _ & Ht)|[(_ & _ & _ & Ht)|
    (pre & nm & b & post & Hcap & Hs & Hpre & Hy & _ & _)]].
  - left. unfold printed. rewrite Ht. reflexivity.
  - right; left. unfold printed.
    rewrite Ht, printed_of_app, printed_of_open_events. reflexivity.
  - right; right.
    destruct (printed_found env pre post nm b Hcap Hs Hpre Hy) as (Hp & _ & _).
    unfold yields_key in Hy. unfold cookies_of in Hp.
    destruct (cookie_store env b claude_domain) as [e|cj] eqn:Hst; [discriminate|].
    destruct (jar_fault cj) eqn:Hf; [discriminate|].
    exists nm, b, cj. repeat split; auto.
    rewrite Hs. apply in_elt.
Qed.

(** A Success object is built from one store, opened and scanned to its end
    without an exception. *)
Lemma success_attribution (env : Env) (d : dict) :
  In d (printed env) ->
  dict_has (lit "sessionKey") d = true ->
  exists nm b cj,
    In (nm, b) browsers
    /\ cookie_store env b claude_domain = inr cj
    /\ jar_fault cj = None
    /\ d = success_result nm (captured key_name (jar_cookies cj))
             (captured org_name (jar_cookies cj)).
Proof.
  intros Hin Hkey.
  destruct (printed_shapes env) as [Hp|[Hp|(nm & b & cj & Hb & Hst & Hf & _ & Hp)]];
    rewrite Hp in Hin; destruct Hin as [<-|[]].
  - discriminate Hkey.
  - discriminate Hkey.
  - exists nm, b, cj. auto.
Qed.

(** C6, as the script has it. The Success object has the field
    [organizationId] exactly when the last [lastActiveOrg] record of the
    store that yielded the session key has a non-empty value, and the field
    then holds that value; with no such record, or an empty value, the
    object has no [organizationId] field. *)
Theorem org_field_iff_nonempty_value (env : Env) :
  forall pre nm b post,
    has_browser_cookie3 env = true ->
    browsers = pre ++ (nm, b) :: post ->
    (forall e, In e pre -> yields_key env (snd e) = false) ->
    yields_key env b = true ->
    exists d,
      printed env = [d]
      /\ dict_get (lit "organizationId") d =
           match last_value org_name (cookies_of env b) with
           | Some (c :: v) => Some (PyStr (c :: v))
           | _ => None
           end
      /\ (dict_has (lit "organizationId") d = true
          <-> exists v, last_value org_name (cookies_of env b) = Some v /\ v <> []).
Proof.
  intros pre nm b post Hcap Hs Hpre Hy.
  destruct (printed_found env pre post nm b Hcap Hs Hpre Hy) as (Hp & _ & _).
  eexists. split; [exact Hp|].
  destruct (success_result_fields nm (captured key_name (cookies_of env b))
              (captured org_name (cookies_of env b))) as (_ & _ & Ho).
  unfold dict_has. rewrite Ho. unfold captured.
  destruct (last_value org_name (cookies_of env b)) as [[|c v]|]; cbn [truthy].
  - split; [reflexivity|]. split; [discriminate|].
    intros (v & Hv & Hne). injection Hv as <-. contradiction.
  - split; [reflexivity|]. split; [|reflexivity].
    intros _. exists (c :: v). split; [reflexivity|discriminate].
  - split; [reflexivity|]. split; [discriminate|].
    intros (v & Hv & _). discriminate.
Qed.

(** C6, as written, fails: Chrome's store yields the key and holds a
    [lastActiveOrg] record, with an empty value, and the Success object has
    no [organizationId] field. *)
Lemma org_field_iff_record_fails : ~ org_field_iff_record env_empty_org.
Proof.
  intros H.
  destruct (H [] "chrome"%string Chrome
              [("firefox", Firefox); ("edge", Edge); ("chromium", Chromium)]%string)
    as (d & Hp & _ & Hback); try reflexivity.
  - intros e [].
  - vm_compute in Hp. injection Hp as <-.
    specialize (Hback eq_refl). vm_compute in Hback. discriminate.
Qed.

Lemma org_field_iff_nonempty_value_witness :
  exists d,
    printed env_locked_then_found = [d]
    /\ dict_get (lit "organizationId") d = Some (PyStr (lit "org-1")).
Proof.
  destruct (org_field_iff_nonempty_value env_locked_then_found
              [("chrome", Chrome)]%string "firefox"%string Firefox
              [("edge", Edge); ("chromium", Chromium)]%string)
    as (d & Hp & Ho & _).
  - reflexivity.
  - reflexivity.
  - intros e [<-|[]]. reflexivity.
  - reflexivity.
  - exists d. split; [exact Hp|exact Ho].
Defined.

(** C8. Once a store has opened, both accumulators are set to [None] before
    its records are scanned, so after probing a browser they hold what that
    browser's own records left, whatever they held before; the outcome of
    the loop and everything it prints do not depend on the accumulators it
    starts from; and every Success object is built from the records of the
    one store it names. The frame carries no other variable. *)
Theorem accumulators_reset_per_browser (env : Env) :
  (forall nm b cj s,
      cookie_store env b claude_domain = inr cj ->
      session_key (snd (probe (nm, b) env s))
        = Some (captured key_name (jar_cookies cj))
      /\ org_id (snd (probe (nm, b) env s))
           = Some (captured org_name (jar_cookies cj)))
  /\ (forall es s1 s2,
         trace s1 = trace s2 ->
         fst (for_each es probe env s1) = fst (for_each es probe env s2)
         /\ trace (snd (for_each es probe env s1))
              = trace (snd (for_each es probe env s2)))
  /\ (forall d,
         In d (printed env) ->
         dict_has (lit "sessionKey") d = true ->
         exists nm b,
           In (nm, b) browsers
           /\ d = success_result nm (captured key_name (cookies_of env b))
                    (captured org_name (cookies_of env b))).
Proof.
  split; [|split].
  - intros nm b cj s Hst. rewrite probe_eq, Hst. cbv zeta.
    destruct (jar_fault cj); [split; reflexivity|].
    destruct (truthy (captured key_name (jar_cookies cj))); split; reflexivity.
  - intros es s1 s2. apply loop_independent.
  - intros d Hin Hk.
    destruct (success_attribution env d Hin Hk) as (nm & b & cj & Hb & Hst & _ & Hd).
    exists nm, b. split; [exact Hb|].
    unfold cookies_of. rewrite Hst. exact Hd.
Qed.

Lemma accumulators_reset_per_browser_witness :
  let stale := mkState (Some (PyStr (lit "cr-key"))) (Some (PyStr (lit "org-1"))) [] in
  session_key (snd (probe ("firefox"%string, Firefox) env_empty_key stale))
    = Some (PyStr (lit "fx-key"))
  /\ org_id (snd (probe ("firefox"%string, Firefox) env_empty_key stale))
       = Some PyNone
  /\ fst (for_each browsers probe env_empty_key stale)
       = fst (for_each browsers probe env_empty_key init_state).
Proof.
  intros stale.
  destruct (accumulators_reset_per_browser env_empty_key) as (Hreset & Hind & _).
  destruct (Hreset "firefox"%string Firefox
              (mkJar [ck "sessionKey" "fx-key"] None) stale eq_refl) as [Hk Ho].
  destruct (Hind browsers stale init_state eq_refl) as [Hc _].
  split; [exact Hk|]. split; [exact Ho|exact Hc].
Defined.

(** C9. An empty value counts as no value. When the last [sessionKey]
    record of a store has an empty value, nothing is printed for that
    browser and the loop goes on with the next one. When the store yields a
    session key and its last [lastActiveOrg] record has an empty value, the
    Success object has the two fields [sessionKey] and [browser] only,
    although the record exists. *)
Theorem empty_value_is_absent (env : Env) :
  (forall nm b rest s cj,
      cookie_store env b claude_domain = inr cj ->
      jar_fault cj = None ->
      last_value key_name (jar_cookies cj) = Some [] ->
      has_record key_name (jar_cookies cj) = true
      /\ exists s',
           for_each ((nm, b) :: rest) probe env s = for_each rest probe env s'
           /\ trace s' = trace s ++ [EvOpen b claude_domain])
  /\ (forall nm b s cj,
         cookie_store env b claude_domain = inr cj ->
         jar_fault cj = None ->
         truthy (captured key_name (jar_cookies cj)) = true ->
         last_value org_name (jar_cookies cj) = Some [] ->
         has_record org_name (jar_cookies cj) = true
         /\ fst (probe (nm, b) env s) = Return_
         /\ trace (snd (probe (nm, b) env s))
              = trace s
                  ++ [ EvOpen b claude_domain;
                       EvPrint [ (lit "sessionKey", captured key_name (jar_cookies cj));
                                 (lit "browser", PyStr (lit nm)) ] ]).
Proof.
  split.
  - intros nm b rest s cj Hst Hf Hlast. split.
    + destruct (has_record key_name (jar_cookies cj)) eqn:Hr; [reflexivity|].
      apply last_value_none in Hr. congruence.
    + destruct (probe_skip nm b env s) as (s' & Hp & Ht).
      { unfold yields_key, captured. rewrite Hst, Hf, Hlast. reflexivity. }
      exists s'. split; [apply loop_step; exact Hp|exact Ht].
  - intros nm b s cj Hst Hf Hk Hlast. split.
    + destruct (has_record org_name (jar_cookies cj)) eqn:Hr; [reflexivity|].
      apply last_value_none in Hr. congruence.
    + assert (Ho : captured org_name (jar_cookies cj) = PyStr []).
      { unfold captured. rewrite Hlast. reflexivity. }
      rewrite probe_eq, Hst. cbv zeta. rewrite Hf, Hk.
      unfold log, success_result. rewrite Ho.
      cbn [fst snd trace truthy]. rewrite <- app_assoc. split; reflexivity.
Qed.

Lemma empty_value_is_absent_witness :
  (exists s',
      for_each browsers probe env_empty_key init_state
      = for_each (tl browsers) probe env_empty_key s'
      /\ trace s' = [EvOpen Chrome claude_domain])
  /\ trace (snd (probe ("chrome"%string, Chrome) env_empty_org init_state))
     = [ EvOpen Chrome claude_domain;
         EvPrint [ (lit "sessionKey", PyStr (lit "cr-key"));
                   (lit "browser", PyStr (lit "chrome")) ] ].
Proof.
  split.
  - destruct (empty_value_is_absent env_empty_key) as [H _].
    destruct (H "chrome"%string Chrome (tl browsers) init_state
                (mkJar [ck "sessionKey" EmptyString; ck "lastActiveOrg" "org-1"] None)
                eq_refl eq_refl eq_refl) as [_ Hs].
    exact Hs.
  - destruct (empty_value_is_absent env_empty_org) as [_ H].
    destruct (H "chrome"%string Chrome init_state
                (mkJar [ck "sessionKey" "cr-key"; ck "lastActiveOrg" EmptyString] None)
                eq_refl eq_refl eq_refl eq_refl) as (_ & _ & Ht).
    exact Ht.
Defined.

(** C10. When iterating an opened store raises partway, nothing is printed
    for that browser and the rest of the loop ends and prints as it does
    after a store that could not be opened: the values captured before the
    exception have no effect. A Success object comes only from a store that
    opened and was scanned to its end without an exception. *)
Theorem scan_error_discards_store (env : Env) :
  (forall nm b rest s cj e,
      cookie_store env b claude_domain = inr cj ->
      jar_fault cj = Some e ->
      fst (for_each ((nm, b) :: rest) probe env s)
        = fst (for_each rest probe env (log (EvOpen b claude_domain) s))
      /\ trace (snd (for_each ((nm, b) :: rest) probe env s))
           = trace (snd (for_each rest probe env (log (EvOpen b claude_domain) s))))
  /\ (forall d,
         In d (printed env) ->
         dict_has (lit "sessionKey") d = true ->
         exists nm b cj,
           In (nm, b) browsers
           /\ cookie_store env b claude_domain = inr cj
           /\ jar_fault cj = None
           /\ d = success_result nm (captured key_name (jar_cookies cj))
                    (captured org_name (jar_cookies cj))).
Proof.
  split.
  - intros nm b rest s cj e Hst Hf.
    assert (Hp : probe (nm, b) env s
                 = (Continue,
                    mkState (Some (captured key_name (jar_cookies cj)))
                      (Some (captured org_name (jar_cookies cj)))
                      (trace s ++ [EvOpen b claude_domain]))).
    { rewrite probe_eq, Hst. cbv zeta. rewrite Hf. reflexivity. }
    rewrite (loop_step _ rest _ _ _ (or_intror Hp)).
    apply loop_independent. reflexivity.
  - intros d. apply success_attribution.
Qed.

Lemma scan_error_discards_store_witness :
  fst (for_each browsers probe env_scan_fault init_state)
    = fst (for_each (tl browsers) probe env_scan_fault
             (log (EvOpen Chrome claude_domain) init_state))
  /\ trace (snd (for_each browsers probe env_scan_fault init_state))
     = trace (snd (for_each (tl browsers) probe env_scan_fault
                     (log (EvOpen Chrome claude_domain) init_state))).
Proof.
  destruct (scan_error_discards_store env_scan_fault) as [H _].
  apply (H "chrome"%string Chrome (tl browsers) init_state
           (mkJar [ck "sessionKey" "cr-key"; ck "lastActiveOrg" "org-1"]
                  (Some OtherException))
           OtherException eq_refl eq_refl).
Defined.

(** * Further properties of the script *)

(** ** Runs that cannot be told apart *)

Lemma observation_determines (env1 env2 : Env) :
  observation env1 = observation env2 ->
  stdout env1 = stdout env2
  /\ opened env1 = opened env2
  /\ exit_code env1 = exit_code env2.
Proof.
  unfold observation, stdout, printed, opened, exit_code.
  intros H. injection H as Hc Ht. rewrite Hc, Ht. auto.
Qed.

Lemma store_view_none (env : Env) (b : Browser) :
  store_view env b = None <-> yields_key env b = false.
Proof.
  unfold store_view. destruct (yields_key env b); split; congruence.
Qed.


(** A run is decided by the import and by what the loop gets out of the
    stores it opens. *)
Lemma observation_by_view (env1 env2 : Env) :
  has_browser_cookie3 env1 = has_browser_cookie3 env2 ->
  (forall b, In b (opened env1) -> store_view env1 b = store_view env2 b) ->
  observation env1 = observation env2.
Proof.
  intros Hcap Hview. unfold observation.
  destruct (run_cases env1) as [(Hc1 & _ & _)|[(Hc1 & Hno & _ & _)|
    (pre & nm & b & post & Hc1 & Hs & Hpre & Hy & _ & _)]].
  - rewrite (run_no_capability env1 Hc1).
    rewrite (run_no_capability env2) by congruence. reflexivity.
  - assert (Hc2 : has_browser_cookie3 env2 = true) by congruence.
    destruct (printed_not_found env1 Hc1 Hno) as (_ & Ho & _).
    assert (Hno2 : forall e, In e browsers -> yields_key env2 (snd e) = false).
    { intros e He. apply store_view_none. rewrite <- Hview.
      - apply store_view_none, Hno, He.
      - rewrite Ho. change [Chrome; Firefox; Edge; Chromium] with (map snd browsers).
        apply in_map, He. }
    destruct (run_not_found env1 Hc1 Hno) as [-> ->].
    destruct (run_not_found env2 Hc2 Hno2) as [-> ->]. reflexivity.
  - assert (Hc2 : has_browser_cookie3 env2 = true) by congruence.
    destruct (printed_found env1 pre post nm b Hc1 Hs Hpre Hy) as (_ & Ho & _).
    assert (Hpre2 : forall e, In e pre -> yields_key env2 (snd e) = false).
    { intros e He. apply store_view_none. rewrite <- Hview.
      - apply store_view_none, Hpre, He.
      - rewrite Ho. apply in_or_app. left. apply in_map, He. }
    assert (Hb : store_view env1 b = store_view env2 b).
    { apply Hview. rewrite Ho. apply in_or_app. right. left. reflexivity. }
    unfold store_view in Hb. rewrite Hy in Hb.
    destruct (yields_key env2 b) eqn:Hy2; [|discriminate].
    injection Hb as Hk Horg.
    destruct (run_found env1 pre post nm b Hc1 Hs Hpre Hy) as [-> ->].
    destruct (run_found env2 pre post nm b Hc2 Hs Hpre2 Hy2) as [-> ->].
    rewrite Hk, Horg. reflexivity.
Qed.




(** ** Records the scan does not look at, and the order of records *)

Lemma last_value_app (nm : pystr) (cs1 cs2 : list Cookie) :
  last_value nm (cs1 ++ cs2) =
    match last_value nm cs2 with
    | Some v => Some v
    | None => last_value nm cs1
    end.
Proof.
  induction cs1 as [|c cs1 IH]; cbn [app last_value].
  - destruct (last_value nm cs2); reflexivity.
  - rewrite IH. destruct (last_value nm cs2); reflexivity.
Qed.

Lemma last_value_filter (nm : pystr) (p : Cookie -> bool) (cs : list Cookie) :
  (forall c, pystr_eqb (name c) nm = true -> p c = true) ->
  last_value nm (filter p cs) = last_value nm cs.
Proof.
  intros Hp. induction cs as [|c cs IH]; [reflexivity|].
  cbn [filter last_value]. destruct (p c) eqn:Hc.
  - cbn [last_value]. rewrite IH. reflexivity.
  - rewrite IH. destruct (last_value nm cs); [reflexivity|].
    destruct (pystr_eqb (name c) nm) eqn:Hn; [|reflexivity].
    rewrite (Hp c Hn) in Hc. discriminate.
Qed.

Lemma count_named_perm (nm : pystr) (cs cs' : list Cookie) :
  Permutation cs cs' -> count_named nm cs = count_named nm cs'.
Proof.
  induction 1 as [|c l l' _ IH|c c' l|l l' l'' _ IH1 _ IH2]; cbn [count_named].
  - reflexivity.
  - rewrite IH. reflexivity.
  - destruct (pystr_eqb (name c) nm), (pystr_eqb (name c') nm); reflexivity.
  - congruence.
Qed.

(** With at most one record of a name, its place among the others does not
    matter. *)
Lemma last_value_perm (nm : pystr) (cs cs' : list Cookie) :
  Permutation cs cs' ->
  (count_named nm cs <= 1)%nat ->
  last_value nm cs = last_value nm cs'.
Proof.
  induction 1 as [|c l l' Hp IH|c c' l|l l' l'' Hp1 IH1 Hp2 IH2]; intros Hcount.
  - reflexivity.
  - cbn [count_named] in Hcount. cbn [last_value]. rewrite IH; [reflexivity|].
    destruct (pystr_eqb (name c) nm); lia.
  - cbn [count_named] in Hcount. cbn [last_value].
    destruct (pystr_eqb (name c) nm) eqn:Hc, (pystr_eqb (name c') nm) eqn:Hc';
      try lia; destruct (last_value nm l); reflexivity.
  - rewrite IH1 by exact Hcount. apply IH2.
    rewrite <- (count_named_perm nm _ _ Hp1). exact Hcount.
Qed.

Lemma store_view_by_last_value (env1 env2 : Env) (b : Browser) (cj1 cj2 : CookieJar) :
  cookie_store env1 b claude_domain = inr cj1 ->
  cookie_store env2 b claude_domain = inr cj2 ->
  (jar_fault cj1 = None <-> jar_fault cj2 = None) ->
  last_value key_name (jar_cookies cj1) = last_value key_name (jar_cookies cj2) ->
  last_value org_name (jar_cookies cj1) = last_value org_name (jar_cookies cj2) ->
  store_view env1 b = store_view env2 b.
Proof.
  intros H1 H2 Hf Hk Ho.
  unfold store_view, yields_key, cookies_of, captured. rewrite H1, H2, Hk, Ho.
  destruct (jar_fault cj1), (jar_fault cj2); try reflexivity.
  - destruct Hf as [_ Hf]. discriminate (Hf eq_refl).
  - destruct Hf as [Hf _]. discriminate (Hf eq_refl).
Qed.

(** X2. Only the records named [sessionKey] and [lastActiveOrg] count:
    removing every other record from every store changes neither the output
    nor the stores opened nor the exit status. *)
Theorem other_records_are_ignored (env : Env) :
  stdout (map_store (fun e => e) (filter relevant) env) = stdout env
  /\ opened (map_store (fun e => e) (filter relevant) env) = opened env
  /\ exit_code (map_store (fun e => e) (filter relevant) env) = exit_code env.
Proof.
  apply observation_determines, observation_by_view; [reflexivity|].
  intros b _.
  destruct (cookie_store env b claude_domain) as [e|cj] eqn:Hst.
  - unfold store_view, yields_key, cookies_of, map_store. cbn [cookie_store].
    rewrite Hst. reflexivity.
  - eapply store_view_by_last_value.
    + unfold map_store. cbn [cookie_store]. rewrite Hst. reflexivity.
    + exact Hst.
    + cbn [jar_fault]. destruct (jar_fault cj); cbn [option_map]; split; congruence.
    + cbn [jar_cookies]. apply last_value_filter.
      intros c Hc. unfold relevant. rewrite Hc. reflexivity.
    + cbn [jar_cookies]. apply last_value_filter.
      intros c Hc. unfold relevant. rewrite Hc. apply orb_true_r.
Qed.

(** X3. When no store holds two records named [sessionKey] or two named
    [lastActiveOrg], the order of the records within the stores is
    irrelevant: environments whose stores differ only by a permutation of
    their records give the same output, stores opened and exit status. *)
Theorem record_order_is_irrelevant (env1 env2 : Env) :
  has_browser_cookie3 env1 = has_browser_cookie3 env2 ->
  (forall b, same_up_to_order (cookie_store env1 b claude_domain)
                              (cookie_store env2 b claude_domain)) ->
  stdout env1 = stdout env2
  /\ opened env1 = opened env2
  /\ exit_code env1 = exit_code env2.
Proof.
  intros Hcap Hsame. apply observation_determines, observation_by_view; [exact Hcap|].
  intros b _. specialize (Hsame b). unfold same_up_to_order in Hsame.
  destruct (cookie_store env1 b claude_domain) as [e1|cj1] eqn:H1,
           (cookie_store env2 b claude_domain) as [e2|cj2] eqn:H2;
    try contradiction.
  - unfold store_view, yields_key. rewrite H1, H2. reflexivity.
  - destruct Hsame as (Hf & Hperm & Hk & Ho).
    eapply store_view_by_last_value; eauto.
    + rewrite Hf. tauto.
    + apply last_value_perm; assumption.
    + apply last_value_perm; assumption.
Qed.

Lemma record_order_is_irrelevant_witness :
  stdout env_three_records = stdout env_three_records_rotated
  /\ opened env_three_records = opened env_three_records_rotated
  /\ exit_code env_three_records = exit_code env_three_records_rotated.
Proof.
  apply (record_order_is_irrelevant env_three_records env_three_records_rotated).
  - reflexivity.
  - intros b. destruct b; cbn; try reflexivity.
    split; [reflexivity|]. split; [|split; vm_compute; lia].
    apply (Permutation_cons_append
             [ck "theme" "dark"; ck "lastActiveOrg" "org-1"] (ck "sessionKey" "cr-key")).
Defined.

(** X4. Which exception a store raises makes no difference, on opening as
    during the scan: replacing every exception by another one changes
    neither the output nor the stores opened nor the exit status. *)
Theorem exception_kind_is_irrelevant (f : exn -> exn) (env : Env) :
  stdout (map_store f (fun cs => cs) env) = stdout env
  /\ opened (map_store f (fun cs => cs) env) = opened env
  /\ exit_code (map_store f (fun cs => cs) env) = exit_code env.
Proof.
  apply observation_determines, observation_by_view; [reflexivity|].
  intros b _.
  unfold store_view, yields_key, cookies_of, map_store. cbn [cookie_store].
  destruct (cookie_store env b claude_domain) as [e|cj]; [reflexivity|].
  cbn [jar_fault jar_cookies]. destruct (jar_fault cj); reflexivity.
Qed.

(** ** Exit status, shape of the output, order of effects *)

Lemma success_result_keys (nm : string) (sk oid : pyval) :
  dict_has (lit "sessionKey") (success_result nm sk oid) = true
  /\ dict_has (lit "error") (success_result nm sk oid) = false
  /\ dict_has (lit "install") (success_result nm sk oid) = false.
Proof. unfold success_result. destruct (truthy oid); repeat split; reflexivity. Qed.

(** X5. The exit status tells the shape of the output. Either the status is
    0, [sys.exit] was not called and the object printed has the field
    [sessionKey] and no field [error] or [install]; or the status is 1,
    [sys.exit] was called and the object has the field [error] and neither
    [sessionKey] nor [browser], with the field [install] exactly when the
    import failed. *)
Theorem exit_status_matches_output (env : Env) :
  exists d,
    printed env = [d]
    /\ ((exit_code env = 0%Z
         /\ called_exit env = false
         /\ dict_has (lit "sessionKey") d = true
         /\ dict_has (lit "error") d = false
         /\ dict_has (lit "install") d = false)
        \/ (exit_code env = 1%Z
            /\ called_exit env = true
            /\ dict_has (lit "error") d = true
            /\ dict_has (lit "sessionKey") d = false
            /\ dict_has (lit "browser") d = false
            /\ dict_has (lit "install") d = negb (has_browser_cookie3 env))).
Proof.
  destruct (run_cases env) as [(Hcap & Hc & Ht)|[(Hcap & Hno & Hc & Ht)|
    (pre & nm & b & post & Hcap & Hs & Hpre & Hy & Hc & Ht)]].
  - exists missing_capability_result. unfold printed, exit_code, called_exit.
    rewrite Hc, Ht. split; [reflexivity|]. right.
    rewrite Hcap. repeat split; reflexivity.
  - exists not_found_result. unfold printed, exit_code, called_exit.
    rewrite Hc, Ht, printed_of_app, printed_of_open_events.
    split; [reflexivity|]. right.
    rewrite Hcap. repeat split; reflexivity.
  - eexists. unfold printed, exit_code, called_exit.
    rewrite Hc, Ht, printed_of_app, printed_of_open_events.
    split; [reflexivity|]. left.
    destruct (success_result_keys nm (captured key_name (cookies_of env b))
                (captured org_name (cookies_of env b))) as (H1 & H2 & H3).
    auto.
Qed.

Lemma truthy_inv (v : pyval) :
  truthy v = true -> exists c s, v = PyStr (c :: s).
Proof.
  destruct v as [|[|c s]]; try discriminate. intros _. eauto.
Qed.

(** X6. A Success object is well formed: its [sessionKey] is a non-empty
    string, its [browser] is one of the four names of the list, an
    [organizationId], when there is one, is a non-empty string, and it has
    no other field. In particular the script never prints an empty or null
    session key. *)
Theorem success_fields_are_well_formed (env : Env) (d : dict) :
  In d (printed env) ->
  dict_has (lit "sessionKey") d = true ->
  (exists c k, dict_get (lit "sessionKey") d = Some (PyStr (c :: k)))
  /\ (exists nm, In nm (map fst browsers)
                 /\ dict_get (lit "browser") d = Some (PyStr (lit nm)))
  /\ (dict_get (lit "organizationId") d = None
      \/ exists c o, dict_get (lit "organizationId") d = Some (PyStr (c :: o)))
  /\ (forall k v, In (k, v) d ->
                  k = lit "sessionKey" \/ k = lit "browser"
                  \/ k = lit "organizationId").
Proof.
  intros Hin Hkey.
  destruct (printed_shapes env) as [Hp|[Hp|(nm & b & cj & Hb & _ & _ & Ht & Hp)]];
    rewrite Hp in Hin; destruct Hin as [<-|[]]; try discriminate Hkey.
  destruct (truthy_inv _ Ht) as (c & k & Hk). rewrite Hk.
  unfold success_result.
  destruct (truthy (captured org_name (jar_cookies cj))) eqn:Ho.
  - destruct (truthy_inv _ Ho) as (c' & o & Hov). rewrite Hov.
    split; [exists c, k; reflexivity|].
    split; [exists nm; split; [apply (in_map fst _ _ Hb)|reflexivity]|].
    split; [right; exists c', o; reflexivity|].
    intros k0 v [H|[H|[H|[]]]]; injection H as <- _; auto.
  - split; [exists c, k; reflexivity|].
    split; [exists nm; split; [apply (in_map fst _ _ Hb)|reflexivity]|].
    split; [left; reflexivity|].
    intros k0 v [H|[H|[]]]; injection H as <- _; auto.
Qed.

Lemma success_fields_are_well_formed_witness :
  exists c k,
    dict_get (lit "sessionKey")
      (success_result "firefox" (PyStr (lit "new")) (PyStr (lit "org-1")))
    = Some (PyStr (c :: k)).
Proof.
  destruct (success_fields_are_well_formed env_locked_then_found
              (success_result "firefox" (PyStr (lit "new")) (PyStr (lit "org-1"))))
    as (H & _).
  - left. reflexivity.
  - reflexivity.
  - exact H.
Defined.

Lemma open_events_map (es : list (string * Browser)) :
  open_events es = map (fun b => EvOpen b claude_domain) (map snd es).
Proof. unfold open_events. rewrite map_map. reflexivity. Qed.

(** With the import raising [ImportError] or nothing and the four readers
    present, the trace is the store openings followed by the one object
    printed. *)
Lemma trace_opens_then_print (env : Env) :
  exists d,
    trace (snd (run env))
    = map (fun b => EvOpen b claude_domain) (opened env) ++ [EvPrint d].
Proof.
  unfold opened.
  destruct (run_cases env) as [(_ & _ & Ht)|[(_ & _ & _ & Ht)|
    (pre & nm & b & post & _ & _ & _ & _ & _ & Ht)]]; rewrite Ht.
  - eexists. reflexivity.
  - eexists. rewrite opened_of_app, opened_of_open_events, open_events_map.
    cbn [opened_of]. rewrite app_nil_r. reflexivity.
  - eexists. rewrite opened_of_app, opened_of_open_events, open_events_map.
    cbn [opened_of]. rewrite map_app, <- app_assoc. reflexivity.
Qed.

(** ** JSON text reads back *)




















(** ** The script on a host *)

(** On the paths the script provides for, the host run is the run of
    [extract_session_key] on the host's stores. *)
Lemma run_host_handled (h : Host) :
  handled h -> run_host h = run (env_of_host h).
Proof.
  intros [Himp|[Himp Hall]].
  - rewrite (run_no_capability (env_of_host h))
      by (unfold env_of_host; cbn [has_browser_cookie3]; rewrite Himp; reflexivity).
    unfold run_host, call, extract_session_key_host, bind at 1, try_except,
      import_module.
    rewrite Himp. reflexivity.
  - rewrite (run_capability (env_of_host h))
      by (unfold env_of_host; cbn [has_browser_cookie3]; rewrite Himp; reflexivity).
    unfold run_host, call, extract_session_key_host, bind at 1, try_except,
      import_module.
    rewrite Himp. unfold bind at 1, browsers_of. unfold bind at 1, reader.
    rewrite (Hall Chrome). unfold bind at 1. rewrite (Hall Firefox).
    unfold bind at 1. rewrite (Hall Edge). unfold bind at 1.
    rewrite (Hall Chromium). unfold ret. fold browsers. unfold bind at 1.
    destruct (for_each browsers probe (env_of_host h) init_state)
      as [[[]| | | |] s']; reflexivity.
Qed.

(** Otherwise the run dies before anything is opened or printed. *)
Lemma run_host_unhandled (h : Host) :
  handled h \/ exists e, run_host h = (Raise e, init_state).
Proof.
  destruct (import_raises h) as [e|] eqn:Himp.
  - destruct e.
    + left. left. exact Himp.
    + right. exists PermissionError.
      unfold run_host, call, extract_session_key_host, bind at 1, try_except,
        import_module.
      rewrite Himp. reflexivity.
    + right. exists OtherException.
      unfold run_host, call, extract_session_key_host, bind at 1, try_except,
        import_module.
      rewrite Himp. reflexivity.
  - destruct (has_reader h Chrome) eqn:H1, (has_reader h Firefox) eqn:H2,
             (has_reader h Edge) eqn:H3, (has_reader h Chromium) eqn:H4.
    1: { left. right. split; [exact Himp|]. intros b. destruct b; assumption. }
    all: right; exists OtherException;
      unfold run_host, call, extract_session_key_host, bind at 1, try_except,
        import_module;
      rewrite Himp; unfold bind at 1, browsers_of; unfold bind, reader, ret;
      rewrite ?H1, ?H2, ?H3, ?H4; reflexivity.
Qed.




(** C9, as written, fails: Chrome's store holds a [sessionKey] record with
    an empty value, followed by one with a value, and the loop stops at
    Chrome. *)
Lemma empty_record_is_absent_fails : ~ empty_record_is_absent env_empty_then_value.
Proof.
  intros [H _].
  destruct (H "chrome"%string Chrome [] init_state
              (mkJar [ck "sessionKey" EmptyString; ck "sessionKey" "cr-key";
                      ck "lastActiveOrg" EmptyString; ck "lastActiveOrg" "org-1"]
                     None)
              eq_refl eq_refl)
    as (s' & Hs & _).
  - left. reflexivity.
  - vm_compute in Hs. discriminate.
Qed.

(** X7. In every run, also one that dies on the import or on a missing
    reader, the trace is the store openings, all for [.claude.ai], followed
    by what was printed, which is one object at most: no store is opened
    once the result is out. A run in which the import raises something
    other than [ImportError], or in which the module lacks a reader, opens
    no store and prints nothing. *)
Theorem print_is_last_effect (h : Host) :
  trace (snd (run_host h))
  = map (fun b => EvOpen b claude_domain) (opened_host h)
      ++ map EvPrint (printed_host h)
  /\ (List.length (printed_host h) <= 1)%nat
  /\ (forall e, import_raises h = Some e -> e <> ImportError ->
                trace (snd (run_host h)) = [])
  /\ (forall b, import_raises h = None -> has_reader h b = false ->
                trace (snd (run_host h)) = []).
Proof.
  assert (Hcrash : forall e, run_host h = (Raise e, init_state) ->
                             trace (snd (run_host h)) = []).
  { intros e He. rewrite He. reflexivity. }
  split; [|split; [|split]].
  - unfold opened_host, printed_host.
    destruct (run_host_unhandled h) as [Hh|[e He]].
    + rewrite (run_host_handled h Hh).
      destruct (trace_opens_then_print (env_of_host h)) as [d Hd].
      rewrite Hd. unfold opened.
      rewrite printed_of_app, opened_of_app. cbn [printed_of opened_of map].
      rewrite app_nil_r.
      assert (Ho : forall bs, opened_of (map (fun b => EvOpen b claude_domain) bs) = bs).
      { induction bs as [|b bs IH]; cbn [map opened_of]; [|rewrite IH]; reflexivity. }
      assert (Hpr : forall bs, printed_of (map (fun b => EvOpen b claude_domain) bs) = []).
      { induction bs as [|b bs IH]; [reflexivity|exact IH]. }
      rewrite Ho, Hpr. reflexivity.
    + rewrite He. reflexivity.
  - unfold printed_host.
    destruct (run_host_unhandled h) as [Hh|[e He]].
    + rewrite (run_host_handled h Hh).
      destruct (printed_shapes (env_of_host h))
        as [E|[E|(nm & b & cj & _ & _ & _ & _ & E)]];
        unfold printed in E; rewrite E; cbn; lia.
    + rewrite He. cbn. lia.
  - intros e Himp Hne.
    destruct (run_host_unhandled h) as [[Hh|[Hh _]]|[e' He]];
      [congruence|congruence|exact (Hcrash e' He)].
  - intros b Himp Hb.
    destruct (run_host_unhandled h) as [[Hh|[_ Hall]]|[e' He]];
      [congruence|rewrite Hall in Hb; discriminate|exact (Hcrash e' He)].
Qed.

Lemma print_is_last_effect_witness :
  trace (snd (run_host host_broken_import)) = []
  /\ trace (snd (run_host host_old_module)) = [].
Proof.
  split.
  - destruct (print_is_last_effect host_broken_import) as (_ & _ & H & _).
    apply (H OtherException); [reflexivity|discriminate].
  - destruct (print_is_last_effect host_old_module) as (_ & _ & _ & H).
    apply (H Edge); reflexivity.
Defined.

(** ** The scan over two batches of records *)

(** X8. Scanning a store whose records come as one batch after another is
    scanning the first batch and then the second from where the first left
    the accumulators. A second batch without a record of a name leaves what
    the first batch captured for it; a second batch with such records
    overrides it with the value of its last one. *)
Theorem scan_composes (env : Env) (cs1 cs2 : list Cookie) (s : State) :
  for_each (cs1 ++ cs2) scan_cookie env s
  = for_each cs2 scan_cookie env (snd (for_each cs1 scan_cookie env s))
  /\ (has_record key_name cs2 = false ->
      session_key (snd (for_each (cs1 ++ cs2) scan_cookie env s))
      = session_key (snd (for_each cs1 scan_cookie env s)))
  /\ (has_record org_name cs2 = false ->
      org_id (snd (for_each (cs1 ++ cs2) scan_cookie env s))
      = org_id (snd (for_each cs1 scan_cookie env s)))
  /\ (forall pre v post,
         cs2 = pre ++ mkCookie key_name v :: post ->
         has_record key_name post = false ->
         session_key (snd (for_each (cs1 ++ cs2) scan_cookie env s))
         = Some (PyStr v))
  /\ (forall pre v post,
         cs2 = pre ++ mkCookie org_name v :: post ->
         has_record org_name post = false ->
         org_id (snd (for_each (cs1 ++ cs2) scan_cookie env s))
         = Some (PyStr v)).
Proof.
  split; [|split; [|split; [|split]]].
  - rewrite !scan_spec. cbn [snd session_key org_id trace].
    rewrite !last_value_app.
    destruct (last_value key_name cs2), (last_value org_name cs2); reflexivity.
  - intros Hno. apply last_value_none in Hno.
    rewrite !scan_spec. cbn [snd session_key]. rewrite last_value_app, Hno.
    reflexivity.
  - intros Hno. apply last_value_none in Hno.
    rewrite !scan_spec. cbn [snd org_id]. rewrite last_value_app, Hno.
    reflexivity.
  - intros pre v post -> Hpost.
    rewrite scan_spec. cbn [snd session_key].
    rewrite last_value_app, (last_value_last _ _ _ _ Hpost). reflexivity.
  - intros pre v post -> Hpost.
    rewrite scan_spec. cbn [snd org_id].
    rewrite last_value_app, (last_value_last _ _ _ _ Hpost). reflexivity.
Qed.

Lemma scan_composes_witness :
  session_key
    (snd (for_each ([ck "sessionKey" "old"; ck "lastActiveOrg" "org-1"]
                      ++ [ck "sessionKey" "new"])
            scan_cookie env_locked_then_found init_state))
  = Some (PyStr (lit "new"))
  /\ org_id
       (snd (for_each ([ck "sessionKey" "old"; ck "lastActiveOrg" "org-1"]
                         ++ [ck "sessionKey" "new"])
               scan_cookie env_locked_then_found init_state))
     = org_id
         (snd (for_each [ck "sessionKey" "old"; ck "lastActiveOrg" "org-1"]
                 scan_cookie env_locked_then_found init_state)).
Proof.
  destruct (scan_composes env_locked_then_found
              [ck "sessionKey" "old"; ck "lastActiveOrg" "org-1"]
              [ck "sessionKey" "new"] init_state) as (_ & _ & Ho & Hk & _).
  split.
  - apply (Hk [] (lit "new") []); reflexivity.
  - apply Ho. reflexivity.
Defined.
